(** * DiffWithRevisionFromCommand.execute (src/commands/diffWithRevisionFrom.ts)

    A shallow embedding of the command that opens a comparison between the
    working-tree file and a revision picked from the stash list or from the
    branches and tags of the repository.

    The command is a straight-line asynchronous procedure that talks to
    collaborators (the git layer, two quick picks, the message box and the
    [gitlens.diffWith] command).  Their answers are the fields of a [Host]
    record, over which every theorem quantifies; each call with an effect
    is recorded in the trace of the run.  The [args] object lives in a
    heap of objects, so that the copy made by [{ ...args }] and the write
    to [args.line] are visible as heap updates. *)

From stdpp Require Import base option list strings gmap.
From Stdlib Require Import ZArith Lia Ascii.

Open Scope Z_scope.

(** ** Data *)

(** [vscode.Uri]: only the file-system path is read here. *)
Record Uri := mkUri { fsPath : string }.

(** [GitUri] extends [Uri] with the repository the file belongs to. *)
Record GitUri := mkGitUri {
  gitUri_base : Uri;
  repoPath : option string;
}.

(** A slot typed [Uri] holds a plain [Uri] or the [GitUri] subclass. *)
Inductive UriSlot :=
| PlainUri (u : Uri)
| RepoUri (g : GitUri).

(** [TextEditor]: the document's uri and [selection.active.line]. *)
Record TextEditor := mkEditor {
  document_uri : Uri;
  selection_active_line : Z;
}.

(** [TextDocumentShowOptions] is an object owned by the caller; the
    command only forwards the reference. *)
Definition TextDocumentShowOptions := positive.

(** [DiffWithRevisionFromCommandArgs], every field optional. *)
Record DiffWithRevisionFromCommandArgs := mkArgs {
  line : option Z;
  showOptions : option TextDocumentShowOptions;
  stash : option bool;
}.

(** The object [{}]. *)
Definition noArgs : DiffWithRevisionFromCommandArgs :=
  {| line := None; showOptions := None; stash := None |}.

(** [GitFile]: the path of a changed file and, for renames and copies,
    the path it had before. *)
Record GitFile := mkFile {
  path : string;
  originalPath : option string;
}.

(** [GitStashCommit]: the stash reference and its files, when known. *)
Record GitStashCommit := mkStashCommit {
  sc_ref : string;
  sc_files : option (list GitFile);
}.

Definition GitStash := list GitStashCommit.

(** [GitReference], a union tagged by [refType]; only branch references
    carry [remote]. *)
Inductive GitReference :=
| GitBranchReference (ref : string) (remote : bool)
| GitTagReference (ref : string)
| GitRevisionReference (ref : string)
| GitStashReference (ref : string).

Definition gr_ref (r : GitReference) : string :=
  match r with
  | GitBranchReference ref _ => ref
  | GitTagReference ref => ref
  | GitRevisionReference ref => ref
  | GitStashReference ref => ref
  end.

(** Modelled from the spec: [isBranchReference] (git/utils/reference.utils)
    is not part of the sources at hand; section 4.2 reads it as "the pick
    is a branch reference". *)
Definition isBranchReference (r : GitReference) : bool :=
  match r with
  | GitBranchReference _ _ => true
  | _ => false
  end.

(** [pick.remote], which is [undefined] on the other variants. *)
Definition gr_remote (r : GitReference) : bool :=
  match r with
  | GitBranchReference _ remote => remote
  | _ => false
  end.

(** One side of the comparison in [DiffWithCommandArgs]. *)
Record DiffSide := mkSide {
  sha : string;
  uri : UriSlot;
  title : option string;
}.

Record DiffWithCommandArgs := mkDiffWith {
  dw_repoPath : string;
  lhs : DiffSide;
  rhs : DiffSide;
  dw_line : option Z;
  dw_showOptions : option TextDocumentShowOptions;
}.

(** A settled promise. *)
Inductive Settled (A : Type) :=
| Fulfilled (a : A)
| Rejected (reason : string).
Arguments Fulfilled {A} a.
Arguments Rejected {A} reason.

(** The options handed to the two pickers. *)
Record StashPickerOptions := mkStashOptions {
  spo_empty : string;
  spo_filter : GitStashCommit → bool;
}.

Record ReferencePickerOptions := mkRefOptions {
  allowRevisions : bool;
}.

(** ** Trace of the calls with an effect *)

Inductive Event :=
| EvFromUri (u : Uri)
| EvNoRepositoryWarning (message : string)
| EvGetStash (repo : string)
| EvStashPicker (stashes : option (Settled (option GitStash)))
    (picker_title placeholder : string) (options : StashPickerOptions)
| EvReferencePicker (repo picker_title placeholder : string)
    (options : ReferencePickerOptions)
| EvDiffStatus (repo ref1 ref2 : string) (filters : list string)
| EvExecuteCommand (command : string) (payload : DiffWithCommandArgs).

(** ** The collaborators *)

Record Host := mkHost {
  (* commands/commandBase.utils *)
  getCommandUri : option Uri → option TextEditor → option Uri;
  (* git/gitUri *)
  GitUri_fromUri : Uri → Settled GitUri;
  getFormattedFileName : GitUri → option Z → string;
  (* container.git *)
  getRelativePath : GitUri → string → string;
  getAbsoluteUri : string → string → Uri;
  (* [stash(repoPath)?.getStash()]: the promise, when there is a provider *)
  git_stash_getStash : string → option (Settled (option GitStash));
  getDiffStatus :
    string → string → string → list string → Settled (option (list GitFile));
  (* quickpicks *)
  showStashPicker :
    option (Settled (option GitStash)) → string → string →
    StashPickerOptions → Settled (option GitStashCommit);
  showReferencePicker :
    string → string → string → ReferencePickerOptions →
    Settled (option GitReference);
  (* system *)
  executeCommand : string → DiffWithCommandArgs → Settled unit;
  basename : string → string;
  shortenRevision : string → string;
  pad : string → Z → Z → string;
  (* constants *)
  GlyphChars_Dot : string;
  quickPickTitleMaxChars : Z;
}.

(** The UTF-16 code units that the code point started by the byte [c]
    takes: a string here holds the UTF-8 bytes of a text, a code point of
    up to three bytes is one unit, one of four bytes is a surrogate pair,
    and the bytes that continue a code point add nothing. *)
Definition utf16_units (c : ascii) : nat :=
  let n := nat_of_ascii c in
  if Nat.ltb n 128 then 1%nat
  else if Nat.ltb n 192 then 0%nat
  else if Nat.ltb n 240 then 1%nat
  else 2%nat.

(** [s.length]: the number of UTF-16 code units of [s]. *)
Fixpoint js_length (s : string) : nat :=
  match s with
  | EmptyString => 0%nat
  | String c s' => (utf16_units c + js_length s')%nat
  end.


(** ** The command monad

    A command runs on the heap of argument objects, appends to the trace
    and completes normally, by [return], or with an exception (an awaited
    promise that was rejected). *)

Definition loc := positive.

Inductive Completion (A : Type) :=
| Normal (a : A)
| Returned
| Thrown (reason : string).
Arguments Normal {A} a.
Arguments Returned {A}.
Arguments Thrown {A} reason.

Definition Cmd (A : Type) : Type :=
  gmap loc DiffWithRevisionFromCommandArgs →
  Completion A * gmap loc DiffWithRevisionFromCommandArgs * list Event.

Definition cmd_ret {A} (a : A) : Cmd A := λ h, (Normal a, h, []).

Definition cmd_bind {A B} (k : A → Cmd B) (m : Cmd A) : Cmd B := λ h,
  match m h with
  | (Normal a, h1, t1) =>
      match k a h1 with
      | (c, h2, t2) => (c, h2, t1 ++ t2)
      end
  | (Returned, h1, t1) => (Returned, h1, t1)
  | (Thrown e, h1, t1) => (Thrown e, h1, t1)
  end.

#[export] Instance cmd_mret : MRet Cmd := @cmd_ret.
#[export] Instance cmd_mbind : MBind Cmd := @cmd_bind.

(** [return;] *)
Definition early_return {A} : Cmd A := λ h, (Returned, h, []).

Definition emit (e : Event) : Cmd unit := λ h, (Normal tt, h, [e]).

(** [await p] *)
Definition await {A} (p : Settled A) : Cmd A := λ h,
  match p with
  | Fulfilled a => (Normal a, h, [])
  | Rejected e => (Thrown e, h, [])
  end.

(** The object a reference designates.  References come from the caller's
    live objects or from [alloc], so the default is not reached. *)
Definition deref (h : gmap loc DiffWithRevisionFromCommandArgs) (l : loc)
  : DiffWithRevisionFromCommandArgs :=
  default noArgs (h !! l).

Definition load (l : loc) : Cmd DiffWithRevisionFromCommandArgs :=
  λ h, (Normal (deref h l), h, []).

Definition store (l : loc) (o : DiffWithRevisionFromCommandArgs) : Cmd unit :=
  λ h, (Normal tt, <[l := o]> h, []).

(** A new object, at a location no live object has. *)
Definition alloc (o : DiffWithRevisionFromCommandArgs) : Cmd loc :=
  λ h, let l := fresh (dom h) in (Normal l, <[l := o]> h, []).

(** [{ ...args }]: a new object with the own fields of [args], or the
    empty object when [args] is [undefined]. *)
Definition spread (args : option loc) : Cmd loc :=
  match args with
  | Some l => o ← load l; alloc o
  | None => alloc noArgs
  end.

(** ** The command *)

Definition js_truthy (s : option string) : option string :=
  match s with
  | Some "" => None
  | other => other
  end%string.

(** The callback [c => c.files?.some(f => f.path === path ||
    f.originalPath === path) ?? true]. *)
Definition stash_filter (p : string) (c : GitStashCommit) : bool :=
  match sc_files c with
  | Some fs =>
      existsb (λ f,
        String.eqb (path f) p
        || match originalPath f with
           | Some o => String.eqb o p
           | None => false
           end) fs
  | None => true
  end.

Section Execute.
Variable host : Host.

Definition stash_title : string :=
  "Open Changes with Stash" +:+ pad host (GlyphChars_Dot host) 2 2.

Definition reference_title : string :=
  "Open Changes with Branch or Tag" +:+ pad host (GlyphChars_Dot host) 2 2.

(** The picker's title: the prefix followed by the file name truncated
    to what is left of [quickPickTitleMaxChars]. *)
Definition picker_title (prefix : string) (gitUri : GitUri) : string :=
  prefix +:+
  getFormattedFileName host gitUri
    (Some (quickPickTitleMaxChars host - Z.of_nat (js_length prefix))).

Definition stash_placeholder : string := "Choose a stash to compare with".

Definition reference_placeholder : string :=
  "Choose a reference (branch, tag, etc) to compare with".

(** Lines 55-59: the options of the stash picker. *)
Definition stash_options (gitUri : GitUri) (p : string)
    : StashPickerOptions :=
  {| spo_empty :=
       "No stashes with '" +:+ getFormattedFileName host gitUri None
       +:+ "' found";
     spo_filter := stash_filter p |}.

(** Lines 49-79: the pick, as the pair [(ref, sha)]. *)
Definition pick_revision (stash_mode : bool) (gitUri : GitUri)
    (repo p : string) : Cmd (string * string) :=
  if stash_mode then
    let stashes := git_stash_getStash host repo in
    (* [stash(repoPath)?.getStash()]: called when there is a provider *)
    match stashes with
    | Some _ => emit (EvGetStash repo)
    | None => mret tt
    end;;
    let ptitle := picker_title stash_title gitUri in
    let options := stash_options gitUri p in
    emit (EvStashPicker stashes ptitle stash_placeholder options);;
    pick ← await (showStashPicker host stashes ptitle stash_placeholder
                    options);
    match pick with
    | None => early_return
    | Some pick =>
        let ref := sc_ref pick in
        mret (ref, ref)
    end
  else
    let ptitle := picker_title reference_title gitUri in
    let options := {| allowRevisions := true |} in
    emit (EvReferencePicker repo ptitle reference_placeholder options);;
    pick ← await (showReferencePicker host repo ptitle
                    reference_placeholder options);
    match pick with
    | None => early_return
    | Some pick =>
        let ref := gr_ref pick in
        mret (ref,
              if isBranchReference pick && gr_remote pick
              then "remotes/" +:+ ref else ref)
    end.

(** Lines 83-96: [(renamedUri, renamedTitle)]; [files.find] returns the
    entry of lowest index with the path. *)
Definition rename_of (files : option (list GitFile)) (repo p ref : string)
    : option Uri * option string :=
  match files with
  | Some files =>
      match list_find (λ s, path s = p) files with
      | Some (_, {| originalPath := Some o |}) =>
          (Some (getAbsoluteUri host o repo),
           Some (basename host o +:+ " (" +:+ shortenRevision host ref
                 +:+ ")"))
      | _ => (None, None)
      end
  | None => (None, None)
  end.

(** Lines 99-110: the argument of [gitlens.diffWith]. *)
Definition diffWith_args (gitUri : GitUri) (repo ref sha : string)
    (renamed : option Uri * option string)
    (a : DiffWithRevisionFromCommandArgs) : DiffWithCommandArgs :=
  {| dw_repoPath := repo;
     lhs :=
       {| sha := sha;
          uri := match renamed.1 with
                 | Some r => PlainUri r
                 | None => RepoUri gitUri
                 end;
          title :=
            Some (match renamed.2 with
                  | Some t => t
                  | None =>
                      basename host (fsPath (gitUri_base gitUri))
                      +:+ " (" +:+ shortenRevision host ref +:+ ")"
                  end) |};
     rhs := {| sha := ""; uri := RepoUri gitUri; title := None |};
     dw_line := line a;
     dw_showOptions := showOptions a |}.

Definition execute (editor : option TextEditor) (uri0 : option Uri)
    (args : option loc) : Cmd unit :=
  match getCommandUri host uri0 editor with
  | None => early_return
  | Some u =>
      emit (EvFromUri u);;
      gitUri ← await (GitUri_fromUri host u);
      match js_truthy (repoPath gitUri) with
      | None =>
          emit (EvNoRepositoryWarning "Unable to open file comparison");;
          early_return
      | Some repo =>
          args ← spread args;
          a ← load args;
          match line a with
          | None =>
              store args
                {| line :=
                     Some (match editor with
                           | Some e => selection_active_line e
                           | None => 0
                           end);
                   showOptions := showOptions a;
                   stash := stash a |}
          | Some _ => mret tt
          end;;
          let p := getRelativePath host gitUri repo in
          a ← load args;
          '(ref, sha) ←
            pick_revision (default false (stash a)) gitUri repo p;
          (* [if (ref == null) return;] cannot fire: [ref] is a string *)
          emit (EvDiffStatus repo "HEAD" ref ["R"; "C"]);;
          files ← await (getDiffStatus host repo "HEAD" ref ["R"; "C"]);
          let renamed := rename_of files repo p ref in
          a ← load args;
          let payload := diffWith_args gitUri repo ref sha renamed a in
          emit (EvExecuteCommand "gitlens.diffWith" payload);;
          await (executeCommand host "gitlens.diffWith" payload)
      end
  end.
End Execute.

(** The parts of a run. *)
Definition outcome_of {A}
    (r : Completion A * gmap loc DiffWithRevisionFromCommandArgs * list Event)
  : Completion A := r.1.1.
Definition heap_of {A}
    (r : Completion A * gmap loc DiffWithRevisionFromCommandArgs * list Event)
  : gmap loc DiffWithRevisionFromCommandArgs := r.1.2.
Definition trace_of {A}
    (r : Completion A * gmap loc DiffWithRevisionFromCommandArgs * list Event)
  : list Event := r.2.

(** The payloads handed to [executeCommand] in a trace. *)
Definition dispatched (t : list Event) : list DiffWithCommandArgs :=
  omap (λ e, match e with
             | EvExecuteCommand _ payload => Some payload
             | _ => None
             end) t.

(** ** Runs, declaratively

    [Exit] lists the ways a run ends, as the state machine
    Start, RepoResolved, Cancelled or SelectionMade, RenameChecked,
    Dispatched; [execute_exit] below shows that every run of [execute] is
    one of them. *)

(** The object [{ ...args }] is built from. *)
Definition copied (h : gmap loc DiffWithRevisionFromCommandArgs)
    (args : option loc) : DiffWithRevisionFromCommandArgs :=
  match args with
  | Some l => deref h l
  | None => noArgs
  end.

(** The copy once [line] has its default. *)
Definition with_line (editor : option TextEditor)
    (a : DiffWithRevisionFromCommandArgs) : DiffWithRevisionFromCommandArgs :=
  match line a with
  | Some _ => a
  | None =>
      {| line := Some (from_option selection_active_line 0 editor);
         showOptions := showOptions a;
         stash := stash a |}
  end.

Definition completion_of (p : Settled unit) : Completion unit :=
  match p with
  | Fulfilled _ => Normal tt
  | Rejected e => Thrown e
  end.

Section Runs.
Variable host : Host.
Variables (editor : option TextEditor) (uri0 : option Uri).

(** The file is known and lies in the repository [repo]. *)
Definition Resolved (u : Uri) (g : GitUri) (repo : string) : Prop :=
  getCommandUri host uri0 editor = Some u ∧
  GitUri_fromUri host u = Fulfilled g ∧
  js_truthy (repoPath g) = Some repo.

Definition stash_event (g : GitUri) (repo p : string) : Event :=
  EvStashPicker (git_stash_getStash host repo)
    (picker_title host (stash_title host) g) stash_placeholder
    (stash_options host g p).

Definition stash_answer (g : GitUri) (repo p : string)
    : Settled (option GitStashCommit) :=
  showStashPicker host (git_stash_getStash host repo)
    (picker_title host (stash_title host) g) stash_placeholder
    (stash_options host g p).

Definition reference_event (g : GitUri) (repo : string) : Event :=
  EvReferencePicker repo (picker_title host (reference_title host) g)
    reference_placeholder {| allowRevisions := true |}.

Definition reference_answer (g : GitUri) (repo : string)
    : Settled (option GitReference) :=
  showReferencePicker host repo (picker_title host (reference_title host) g)
    reference_placeholder {| allowRevisions := true |}.

(** The stash list is fetched when the repository has a stash provider. *)
Definition stash_fetch (repo : string) : list Event :=
  match git_stash_getStash host repo with
  | Some _ => [EvGetStash repo]
  | None => []
  end.

(** The picker gave a selection: the calls made, [ref] and [sha]. *)
Inductive Picked (stash_mode : bool) (g : GitUri) (repo p : string)
  : list Event → string → string → Prop :=
| picked_stash pick :
    stash_mode = true →
    stash_answer g repo p = Fulfilled (Some pick) →
    Picked stash_mode g repo p (stash_fetch repo ++ [stash_event g repo p])
      (sc_ref pick) (sc_ref pick)
| picked_reference pick :
    stash_mode = false →
    reference_answer g repo = Fulfilled (Some pick) →
    Picked stash_mode g repo p [reference_event g repo]
      (gr_ref pick)
      (if isBranchReference pick && gr_remote pick
       then "remotes/" +:+ gr_ref pick else gr_ref pick).

(** The picker gave nothing, or failed. *)
Inductive Unpicked (stash_mode : bool) (g : GitUri) (repo p : string)
  : list Event → Completion unit → Prop :=
| stash_cancelled :
    stash_mode = true →
    stash_answer g repo p = Fulfilled None →
    Unpicked stash_mode g repo p (stash_fetch repo ++ [stash_event g repo p])
      Returned
| stash_failed e :
    stash_mode = true →
    stash_answer g repo p = Rejected e →
    Unpicked stash_mode g repo p (stash_fetch repo ++ [stash_event g repo p])
      (Thrown e)
| reference_cancelled :
    stash_mode = false →
    reference_answer g repo = Fulfilled None →
    Unpicked stash_mode g repo p [reference_event g repo] Returned
| reference_failed e :
    stash_mode = false →
    reference_answer g repo = Rejected e →
    Unpicked stash_mode g repo p [reference_event g repo] (Thrown e).

Inductive Exit (a : DiffWithRevisionFromCommandArgs)
  : Completion unit → list Event → Prop :=
| exit_no_uri :
    getCommandUri host uri0 editor = None →
    Exit a Returned []
| exit_lookup_failed u e :
    getCommandUri host uri0 editor = Some u →
    GitUri_fromUri host u = Rejected e →
    Exit a (Thrown e) [EvFromUri u]
| exit_no_repository u g :
    getCommandUri host uri0 editor = Some u →
    GitUri_fromUri host u = Fulfilled g →
    js_truthy (repoPath g) = None →
    Exit a Returned
      [EvFromUri u; EvNoRepositoryWarning "Unable to open file comparison"]
| exit_unpicked u g repo evs c :
    Resolved u g repo →
    Unpicked (default false (stash a)) g repo
      (getRelativePath host g repo) evs c →
    Exit a c (EvFromUri u :: evs)
| exit_status_failed u g repo evs ref sha e :
    Resolved u g repo →
    Picked (default false (stash a)) g repo
      (getRelativePath host g repo) evs ref sha →
    getDiffStatus host repo "HEAD" ref ["R"; "C"] = Rejected e →
    Exit a (Thrown e)
      (EvFromUri u :: evs ++ [EvDiffStatus repo "HEAD" ref ["R"; "C"]])
| exit_dispatched u g repo evs ref sha files payload :
    Resolved u g repo →
    Picked (default false (stash a)) g repo
      (getRelativePath host g repo) evs ref sha →
    getDiffStatus host repo "HEAD" ref ["R"; "C"] = Fulfilled files →
    payload =
      diffWith_args host g repo ref sha
        (rename_of host files repo (getRelativePath host g repo) ref) a →
    Exit a (completion_of (executeCommand host "gitlens.diffWith" payload))
      (EvFromUri u :: evs ++
       [EvDiffStatus repo "HEAD" ref ["R"; "C"];
        EvExecuteCommand "gitlens.diffWith" payload]).
End Runs.

(** Weakest precondition of a command for a postcondition on the
    completion, the heap and the trace. *)
Definition wp {A} (m : Cmd A) (h : gmap loc DiffWithRevisionFromCommandArgs)
    (Q : Completion A → gmap loc DiffWithRevisionFromCommandArgs →
         list Event → Prop) : Prop :=
  Q (outcome_of (m h)) (heap_of (m h)) (trace_of (m h)).

(** ** Observations on a trace *)

(** The diff-status queries of a trace: repository, the two revisions and
    the filters. *)
Definition diff_queries (t : list Event)
  : list (string * string * string * list string) :=
  omap (λ e, match e with
             | EvDiffStatus repo r1 r2 filters => Some (repo, r1, r2, filters)
             | _ => None
             end) t.

(** The messages shown by a trace. *)
Definition warnings (t : list Event) : list string :=
  omap (λ e, match e with
             | EvNoRepositoryWarning m => Some m
             | _ => None
             end) t.

(** The picker calls of a trace. *)
Definition picker_events (t : list Event) : list Event :=
  omap (λ e, match e with
             | EvStashPicker _ _ _ _ | EvReferencePicker _ _ _ _ => Some e
             | _ => None
             end) t.

(** [e] is the entry that [fs.find(s => s.path === p)] selects: the one of
    lowest index with path [p]. *)
Definition first_entry_for (p : string) (fs : list GitFile) (e : GitFile)
  : Prop :=
  ∃ i : nat, fs !! i = Some e ∧ path e = p ∧
    ∀ (j : nat) y, fs !! j = Some y → (j < i)%nat → path y ≠ p.

(** [t] reads [name (rev)]. *)
Definition titled (host : Host) (name rev : string) (t : option string)
  : Prop :=
  t = Some (name +:+ " (" +:+ shortenRevision host rev +:+ ")").

(** The request shows the outcome of the lookup in [files] (lines 90-96):
    with an original path in the first entry for the file's path, the
    left-hand side is that path and its basename; with none, the current
    file and its basename. *)
Definition rename_applied (host : Host) (g : GitUri) (repo ref : string)
    (files : option (list GitFile)) (payload : DiffWithCommandArgs) : Prop :=
  (∀ fs e o,
     files = Some fs →
     first_entry_for (getRelativePath host g repo) fs e →
     originalPath e = Some o →
     uri (lhs payload) = PlainUri (getAbsoluteUri host o repo) ∧
     titled host (basename host o) ref (title (lhs payload))) ∧
  ((∀ fs e,
      files = Some fs →
      first_entry_for (getRelativePath host g repo) fs e →
      originalPath e = None) →
   uri (lhs payload) = RepoUri g ∧
   titled host (basename host (fsPath (gitUri_base g))) ref
     (title (lhs payload))).

(** ** A concrete host

    The repository [/repo] with the file [a.ts]; the answers of the
    pickers and of the diff-status query are parameters. *)

Fixpoint last_segment (acc s : string) : string :=
  match s with
  | EmptyString => acc
  | String c s' =>
      if Ascii.eqb c ("/" : Ascii.ascii) then last_segment EmptyString s'
      else last_segment (acc +:+ String c EmptyString) s'
  end.

Definition strip_prefix (pre s : string) : string :=
  if String.prefix pre s
  then String.substring (String.length pre)
         (String.length s - String.length pre) s
  else s.

(** The longest prefix of [s] of at most [n] UTF-16 units that ends with
    a whole code point. *)
Fixpoint take_units (n : nat) (s : string) : string :=
  match s with
  | EmptyString => EmptyString
  | String c s' =>
      if Nat.leb (utf16_units c) n
      then String c (take_units (n - utf16_units c) s')
      else EmptyString
  end.

Definition truncate_name (s : string) (width : option Z) : string :=
  match width with
  | Some n => take_units (Z.to_nat n) s
  | None => s
  end.

Definition demo_uri : Uri := {| fsPath := "/repo/a.ts" |}.

Definition demo_gitUri : GitUri :=
  {| gitUri_base := demo_uri; repoPath := Some "/repo"%string |}.

Definition demo_host
    (stash_pick : Settled (option GitStashCommit))
    (reference_pick : Settled (option GitReference))
    (status : Settled (option (list GitFile))) : Host :=
  {| getCommandUri := λ u e, from_option Some (document_uri <$> e) u;
     GitUri_fromUri := λ u,
       Fulfilled
         {| gitUri_base := u;
            repoPath :=
              if String.prefix "/repo/" (fsPath u) then Some "/repo"%string
              else None |};
     getFormattedFileName := λ g n,
       truncate_name (last_segment EmptyString (fsPath (gitUri_base g))) n;
     getRelativePath := λ g repo,
       strip_prefix (repo +:+ "/") (fsPath (gitUri_base g));
     getAbsoluteUri := λ p repo, {| fsPath := repo +:+ "/" +:+ p |};
     git_stash_getStash := λ _, Some (Fulfilled None);
     getDiffStatus := λ _ _ _ _, status;
     showStashPicker := λ _ _ _ _, stash_pick;
     showReferencePicker := λ _ _ _ _, reference_pick;
     executeCommand := λ _ _, Fulfilled tt;
     basename := last_segment EmptyString;
     shortenRevision := λ r, r;
     pad := λ s before after,
       String.concat EmptyString (replicate (Z.to_nat before) " "%string)
       +:+ s +:+
       String.concat EmptyString (replicate (Z.to_nat after) " "%string);
     GlyphChars_Dot := ".";
     quickPickTitleMaxChars := 80 |}.

(** The user picks the local branch [feature]; no rename. *)
Definition local_branch_host : Host :=
  demo_host (Fulfilled None)
    (Fulfilled (Some (GitBranchReference "feature" false)))
    (Fulfilled (Some [])).

(** The user picks the remote branch [origin/main], where [a.ts] was
    [old/a.ts]. *)
Definition remote_branch_host : Host :=
  demo_host (Fulfilled None)
    (Fulfilled (Some (GitBranchReference "origin/main" true)))
    (Fulfilled
       (Some [ {| path := "b.ts"; originalPath := Some "c.ts"%string |};
               {| path := "a.ts"; originalPath := Some "old/a.ts"%string |} ])).

(** The diff status lists [a.ts] twice, first without an original path. *)
Definition twice_listed : list GitFile :=
  [ {| path := "a.ts"; originalPath := None |};
    {| path := "a.ts"; originalPath := Some "old/a.ts"%string |} ].

Definition twice_listed_host : Host :=
  demo_host (Fulfilled None)
    (Fulfilled (Some (GitBranchReference "feature" false)))
    (Fulfilled (Some twice_listed)).

(** The user picks the stash [stash@{0}]. *)
Definition stash_zero : GitStashCommit :=
  {| sc_ref := "stash@{0}";
     sc_files := Some [ {| path := "a.ts"; originalPath := None |} ] |}.

Definition stash_host : Host :=
  demo_host (Fulfilled (Some stash_zero)) (Fulfilled None)
    (Fulfilled None).

(** Both pickers are dismissed. *)
Definition cancel_host : Host :=
  demo_host (Fulfilled None) (Fulfilled None) (Fulfilled None).

(** A host whose uri lookup is [lookup]. *)
Definition host_with_lookup (host : Host) (lookup : Uri → Settled GitUri)
  : Host :=
  {| getCommandUri := getCommandUri host;
     GitUri_fromUri := lookup;
     getFormattedFileName := getFormattedFileName host;
     getRelativePath := getRelativePath host;
     getAbsoluteUri := getAbsoluteUri host;
     git_stash_getStash := git_stash_getStash host;
     getDiffStatus := getDiffStatus host;
     showStashPicker := showStashPicker host;
     showReferencePicker := showReferencePicker host;
     executeCommand := executeCommand host;
     basename := basename host;
     shortenRevision := shortenRevision host;
     pad := pad host;
     GlyphChars_Dot := GlyphChars_Dot host;
     quickPickTitleMaxChars := quickPickTitleMaxChars host |}.

(** A host whose [executeCommand] answers [answer]. *)
Definition host_with_dispatch (host : Host) (answer : Settled unit) : Host :=
  {| getCommandUri := getCommandUri host;
     GitUri_fromUri := GitUri_fromUri host;
     getFormattedFileName := getFormattedFileName host;
     getRelativePath := getRelativePath host;
     getAbsoluteUri := getAbsoluteUri host;
     git_stash_getStash := git_stash_getStash host;
     getDiffStatus := getDiffStatus host;
     showStashPicker := showStashPicker host;
     showReferencePicker := showReferencePicker host;
     executeCommand := λ _ _, answer;
     basename := basename host;
     shortenRevision := shortenRevision host;
     pad := pad host;
     GlyphChars_Dot := GlyphChars_Dot host;
     quickPickTitleMaxChars := quickPickTitleMaxChars host |}.









(** The user picks the stash [stash@{0}], since which [a.ts] was renamed
    from [old/a.ts]. *)
Definition stash_renamed_host : Host :=
  demo_host (Fulfilled (Some stash_zero)) (Fulfilled None)
    (Fulfilled
       (Some [ {| path := "a.ts"; originalPath := Some "old/a.ts"%string |} ])).

(** The caller's heap: one [args] object at location 1. *)
Definition caller_args (stash_mode : bool) : DiffWithRevisionFromCommandArgs :=
  {| line := None; showOptions := Some 7%positive; stash := Some stash_mode |}.

Definition caller_heap (stash_mode : bool)
  : gmap loc DiffWithRevisionFromCommandArgs :=
  {[ 1%positive := caller_args stash_mode ]}.

Definition demo_editor : TextEditor :=
  {| document_uri := demo_uri; selection_active_line := 12 |}.

(** ** Rules of the command monad *)

Section Rules.
Context {A B : Type}.
Implicit Types h : gmap loc DiffWithRevisionFromCommandArgs.

Lemma wp_bind (m : Cmd A) (k : A → Cmd B) h Q :
  wp m h (λ c h1 t1,
    match c with
    | Normal a => wp (k a) h1 (λ c2 h2 t2, Q c2 h2 (t1 ++ t2))
    | Returned => Q Returned h1 t1
    | Thrown e => Q (Thrown e) h1 t1
    end) →
  wp (m ≫= k) h Q.
Proof.
  unfold wp, outcome_of, heap_of, trace_of, mbind, cmd_mbind, cmd_bind.
  destruct (m h) as [[[a| |e] h1] t1]; simpl; [|done..].
  by destruct (k a h1) as [[c2 h2] t2].
Qed.

Lemma wp_ret (a : A) h Q : Q (Normal a) h [] → wp (mret a) h Q.
Proof. done. Qed.

Lemma wp_early_return h (Q : Completion A → _) :
  Q Returned h [] → wp early_return h Q.
Proof. done. Qed.

Lemma wp_await (p : Settled A) h Q :
  match p with
  | Fulfilled a => Q (Normal a) h []
  | Rejected e => Q (Thrown e) h []
  end →
  wp (await p) h Q.
Proof. by destruct p. Qed.
End Rules.

Section HeapRules.
Implicit Types h : gmap loc DiffWithRevisionFromCommandArgs.

Lemma wp_emit e h Q : Q (Normal tt) h [e] → wp (emit e) h Q.
Proof. done. Qed.

Lemma wp_load l h Q : Q (Normal (deref h l)) h [] → wp (load l) h Q.
Proof. done. Qed.

Lemma wp_store l o h Q : Q (Normal tt) (<[l := o]> h) [] → wp (store l o) h Q.
Proof. done. Qed.

Lemma wp_alloc o h Q :
  (∀ l, h !! l = None → Q (Normal l) (<[l := o]> h) []) →
  wp (alloc o) h Q.
Proof.
  intros HQ. apply HQ, not_elem_of_dom, is_fresh.
Qed.

Lemma wp_spread args h Q :
  (∀ l, h !! l = None → Q (Normal l) (<[l := copied h args]> h) []) →
  wp (spread args) h Q.
Proof.
  intros HQ. destruct args as [l0|]; simpl.
  - apply wp_bind, wp_load, wp_alloc. intros l Hl. by apply HQ.
  - by apply wp_alloc.
Qed.

Lemma deref_insert h l o : deref (<[l := o]> h) l = o.
Proof. unfold deref. by rewrite lookup_insert_eq. Qed.

Lemma lookup_insert_fresh h l l' o o' :
  h !! l' = None → h !! l = Some o → <[l' := o']> h !! l = Some o.
Proof. intros Hl' Hl. rewrite lookup_insert_ne; [done | congruence]. Qed.
End HeapRules.

(** ** Every run is an [Exit] *)

Lemma wp_pick_revision host mode g repo p h
    (Q : Completion (string * string) → _ → _ → Prop) :
  (∀ evs ref sha, Picked host mode g repo p evs ref sha →
     Q (Normal (ref, sha)) h evs) →
  (∀ evs c, Unpicked host mode g repo p evs c →
     Q (match c with Normal _ => Returned | Returned => Returned
        | Thrown e => Thrown e end) h evs) →
  wp (pick_revision host mode g repo p) h Q.
Proof.
  intros Hpick Hnone. unfold pick_revision.
  destruct mode; cbv zeta.
  - assert (Hfetch : ∀ Q',
      Q' (Normal tt) h (stash_fetch host repo) →
      wp (match git_stash_getStash host repo with
          | Some _ => emit (EvGetStash repo)
          | None => mret tt
          end) h Q').
    { intros Q'. unfold stash_fetch.
      by destruct (git_stash_getStash host repo). }
    apply wp_bind, Hfetch, wp_bind, wp_emit, wp_bind, wp_await.
    destruct (showStashPicker _ _ _ _ _) as [[pick|]|e] eqn:Hans.
    + apply wp_ret. rewrite app_nil_r.
      apply (Hpick _ _ _ (picked_stash host _ g repo p pick eq_refl Hans)).
    + apply wp_early_return. rewrite app_nil_r.
      apply (Hnone _ _ (stash_cancelled host _ g repo p eq_refl Hans)).
    + rewrite app_nil_r.
      apply (Hnone _ _ (stash_failed host _ g repo p e eq_refl Hans)).
  - apply wp_bind, wp_emit, wp_bind, wp_await.
    destruct (showReferencePicker _ _ _ _ _) as [[pick|]|e] eqn:Hans.
    + apply wp_ret.
      apply (Hpick _ _ _ (picked_reference host _ g repo p pick eq_refl Hans)).
    + apply wp_early_return.
      apply (Hnone _ _ (reference_cancelled host _ g repo p eq_refl Hans)).
    + apply (Hnone _ _ (reference_failed host _ g repo p e eq_refl Hans)).
Qed.

Lemma wp_mono {A} (m : Cmd A) h (Q Q' : Completion A → _ → _ → Prop) :
  wp m h Q → (∀ c h' t, Q c h' t → Q' c h' t) → wp m h Q'.
Proof. unfold wp. auto. Qed.

Lemma wp_default_line editor l a (h : gmap loc DiffWithRevisionFromCommandArgs) :
  wp (match line a with
      | Some _ => mret ()
      | None =>
          store l
            {| line :=
                 Some match editor with
                      | Some e => selection_active_line e
                      | None => 0
                      end;
               showOptions := showOptions a;
               stash := stash a |}
      end) (<[l := a]> h)
    (λ c h1 t, c = Normal tt ∧ h1 = <[l := with_line editor a]> h ∧ t = []).
Proof.
  unfold with_line. destruct (line a) eqn:Hline.
  - by apply wp_ret.
  - apply wp_store. by rewrite insert_insert_eq; destruct editor.
Qed.

Lemma execute_wp host editor uri0 args h :
  wp (execute host editor uri0 args) h (λ c h' t,
    Exit host editor uri0 (with_line editor (copied h args)) c t ∧
    ∀ l o, h !! l = Some o → h' !! l = Some o).
Proof.
  unfold execute.
  destruct (getCommandUri host uri0 editor) as [u|] eqn:Hu.
  2: { apply wp_early_return. split; [by constructor | done]. }
  apply wp_bind, wp_emit, wp_bind, wp_await.
  destruct (GitUri_fromUri host u) as [g|e] eqn:Hg.
  2: { split; [by econstructor | done]. }
  destruct (js_truthy (repoPath g)) as [repo|] eqn:Hrepo.
  2: { apply wp_bind, wp_emit, wp_early_return. split; [by econstructor | done]. }
  assert (Hres : Resolved host editor uri0 u g repo) by done.
  apply wp_bind, wp_spread. intros l Hl.
  apply wp_bind, wp_load. rewrite deref_insert.
  apply wp_bind. eapply wp_mono; [apply wp_default_line|].
  cbv beta. intros c h1 t [-> [-> ->]].
  apply wp_bind, wp_load. rewrite deref_insert.
  apply wp_bind, wp_pick_revision.
  2: { intros ev c Hun.
       assert (Hexit := exit_unpicked host editor uri0 _ u g repo ev c Hres Hun).
       destruct Hun; (split; [exact Hexit | by eauto using lookup_insert_fresh]). }
  intros ev ref sha Hpick.
  apply wp_bind, wp_emit, wp_bind, wp_await.
  destruct (getDiffStatus host repo "HEAD" ref ["R"; "C"]) as [files|e] eqn:Hfiles.
  2: { split; [|by eauto using lookup_insert_fresh].
       simpl. eapply exit_status_failed; eauto. }
  apply wp_bind, wp_load. rewrite deref_insert.
  apply wp_bind, wp_emit, wp_await.
  match goal with
  | |- context [executeCommand host ?c ?p] =>
      pose proof (exit_dispatched host editor uri0 _ u g repo ev ref sha files p
                    Hres Hpick Hfiles eq_refl) as Hexit;
      destruct (executeCommand host c p) as [[]|e]
  end; (split; [exact Hexit | by eauto using lookup_insert_fresh]).
Qed.

Lemma execute_exit host editor uri0 args h :
  Exit host editor uri0 (with_line editor (copied h args))
    (outcome_of (execute host editor uri0 args h))
    (trace_of (execute host editor uri0 args h)).
Proof. apply (execute_wp host editor uri0 args h). Qed.


(** Case analysis on the exit of a run of [execute]. *)
Ltac exit_cases host editor uri0 args h :=
  let Hexit := fresh "Hexit" in
  pose proof (execute_exit host editor uri0 args h) as Hexit;
  revert Hexit;
  generalize (outcome_of (execute host editor uri0 args h))
             (trace_of (execute host editor uri0 args h));
  intros ? ? Hexit;
  destruct Hexit as
    [ Huri | xu xe Huri Hlookup | xu xg Huri Hlookup Hrepo
    | xu xg xrepo xev xc Hres Hunpicked
    | xu xg xrepo xev xref xsha xe Hres Hpicked Hstatus
    | xu xg xrepo xev xref xsha xfiles xpayload Hres Hpicked Hstatus
        Hpayload ];
  [ | | | destruct Hunpicked as [Hmode Hanswer | ? Hmode Hanswer
                               | Hmode Hanswer | ? Hmode Hanswer]
    | destruct Hpicked as [xpick Hmode Hanswer | xpick Hmode Hanswer]
    | destruct Hpicked as [xpick Hmode Hanswer | xpick Hmode Hanswer] ];
  unfold stash_fetch, stash_event, reference_event, stash_answer,
    reference_answer in *;
  repeat match goal with
    | |- context [match git_stash_getStash ?hst ?r with _ => _ end] =>
        let Hprovider := fresh "Hprovider" in
        destruct (git_stash_getStash hst r) eqn:Hprovider
    end;
  cbn [app dispatched diff_queries warnings omap list_omap] in *.

(** Membership of an event in an explicit trace. *)
Ltac in_trace H :=
  repeat (apply elem_of_cons in H as [H | H]);
  try (by apply elem_of_nil in H);
  simplify_eq.

(** ** The rename lookup *)

Section Rename.
Variable host : Host.
Implicit Types (fs : list GitFile) (e : GitFile) (p o : string).

Lemma first_entry_for_find p fs e :
  first_entry_for p fs e ↔
  ∃ i, list_find (λ s, path s = p) fs = Some (i, e).
Proof.
  unfold first_entry_for. split; intros [i Hi]; exists i.
  - by apply list_find_Some.
  - by apply list_find_Some in Hi.
Qed.

Lemma rename_of_first files repo p ref fs e o :
  files = Some fs → first_entry_for p fs e → originalPath e = Some o →
  rename_of host files repo p ref =
    (Some (getAbsoluteUri host o repo),
     Some (basename host o +:+ " (" +:+ shortenRevision host ref +:+ ")")).
Proof.
  intros -> [i Hi]%first_entry_for_find Ho. unfold rename_of.
  rewrite Hi. destruct e as [pe oe]. simpl in Ho. by rewrite Ho.
Qed.

Lemma rename_of_none files repo p ref :
  (∀ fs e, files = Some fs → first_entry_for p fs e →
     originalPath e = None) →
  rename_of host files repo p ref = (None, None).
Proof.
  intros Hnone. unfold rename_of. destruct files as [fs|]; [|done].
  destruct (list_find _ fs) as [[i [pe [o|]]]|] eqn:Hfind; [|done..].
  assert (first_entry_for p fs {| path := pe; originalPath := Some o |})
    as Hfirst by (apply first_entry_for_find; eauto).
  by specialize (Hnone _ _ eq_refl Hfirst).
Qed.
End Rename.

(** ** Lengths of strings *)




(** An event of an explicit trace. *)
Ltac trace_has :=
  solve [repeat first [apply list_elem_of_here | apply list_elem_of_further]].

(** ** Properties of the dispatched request *)

(** C1, as amended: for every request handed to [gitlens.diffWith], with
    [files] the answer of the diff-status query: if the first entry of
    [files] whose path is the file's repository-relative path carries an
    original path, the left-hand uri is that original path resolved in the
    same repository and the left-hand title is the basename of the original
    path followed by the shortened revision in parentheses; otherwise (no
    answer, no such entry, or a first such entry without original path) the
    left-hand uri is the current file location and the title is made from
    the basename of the current path. *)
Theorem rename_propagation host editor uri0 args h payload :
  payload ∈ dispatched (trace_of (execute host editor uri0 args h)) →
  ∃ u g repo ref files,
    Resolved host editor uri0 u g repo ∧
    EvDiffStatus repo "HEAD" ref ["R"; "C"]
      ∈ trace_of (execute host editor uri0 args h) ∧
    getDiffStatus host repo "HEAD" ref ["R"; "C"] = Fulfilled files ∧
    (∀ fs e o,
       files = Some fs →
       first_entry_for (getRelativePath host g repo) fs e →
       originalPath e = Some o →
       uri (lhs payload) = PlainUri (getAbsoluteUri host o repo) ∧
       titled host (basename host o) ref (title (lhs payload))) ∧
    ((∀ fs e,
        files = Some fs →
        first_entry_for (getRelativePath host g repo) fs e →
        originalPath e = None) →
     uri (lhs payload) = RepoUri g ∧
     titled host (basename host (fsPath (gitUri_base g))) ref
       (title (lhs payload))).
Proof.
  exit_cases host editor uri0 args h; intros Hin; in_trace Hin.
  all: eexists xu, xg, xrepo, _, xfiles.
  all: split; [done|]; split; [trace_has|]; split; [done|].
  all: split;
    [ intros fs e o Hfs Hfirst Ho;
      by rewrite (rename_of_first host _ _ _ _ _ _ _ Hfs Hfirst Ho)
    | intros Hnone; by rewrite (rename_of_none host _ _ _ _ Hnone) ].
Qed.

Lemma rename_propagation_witness :
  ∃ payload,
    payload ∈ dispatched
      (trace_of (execute remote_branch_host None (Some demo_uri) None ∅)) ∧
    uri (lhs payload) = PlainUri {| fsPath := "/repo/old/a.ts" |} ∧
    title (lhs payload) = Some "a.ts (origin/main)"%string.
Proof.
  eexists. split; [vm_compute; apply list_elem_of_here|].
  match goal with
  | |- uri (lhs ?p) = _ ∧ _ =>
      destruct (rename_propagation remote_branch_host None (Some demo_uri)
                  None ∅ p)
        as (u & g & repo & ref & files & (Hu & Hg & Hr) & Hq & Hst & Hren & _)
  end.
  { vm_compute. apply list_elem_of_here. }
  vm_compute in Hu. simplify_eq. vm_compute in Hg. simplify_eq.
  vm_compute in Hr. simplify_eq. vm_compute in Hq. in_trace Hq.
  vm_compute in Hst. simplify_eq.
  assert (first_entry_for "a.ts"
            [ {| path := "b.ts"; originalPath := Some "c.ts"%string |};
              {| path := "a.ts"; originalPath := Some "old/a.ts"%string |} ]
            {| path := "a.ts"; originalPath := Some "old/a.ts"%string |})
    as Hfirst.
  { exists 1%nat. split; [done|]. split; [done|].
    intros [|j] y Hy Hj; [|lia]. by simplify_eq/=. }
  exact (Hren _ _ _ eq_refl Hfirst eq_refl).
Defined.

(** The claim C1 as it is written asks for the original path of any entry
    with the file's path.  With [a.ts] listed twice, first without and then
    with an original path, such an entry exists, and the request still
    points at the current file: [files.find] stops at the first entry. *)
Lemma rename_any_entry_counterexample :
  getDiffStatus twice_listed_host "/repo" "HEAD" "feature" ["R"; "C"]
    = Fulfilled (Some twice_listed) ∧
  getRelativePath twice_listed_host demo_gitUri "/repo" = "a.ts"%string ∧
  (∃ e, e ∈ twice_listed ∧ path e = "a.ts"%string ∧
        originalPath e = Some "old/a.ts"%string) ∧
  ∃ payload,
    dispatched
      (trace_of (execute twice_listed_host None (Some demo_uri) None ∅))
      = [payload] ∧
    uri (lhs payload) = RepoUri demo_gitUri ∧
    uri (lhs payload)
      ≠ PlainUri (getAbsoluteUri twice_listed_host "old/a.ts" "/repo") ∧
    title (lhs payload) = Some "a.ts (feature)"%string.
Proof.
  split; [done|]. split; [by vm_compute|]. split.
  - eexists. split; [apply list_elem_of_further, list_elem_of_here|done].
  - eexists. split; [by vm_compute|]. by vm_compute.
Qed.

(** Renamed or not, the left-hand title ends with the shortened [ref]. *)
Lemma title_shows_ref host g repo ref s files p a :
  ∃ name,
    titled host name ref
      (title (lhs (diffWith_args host g repo ref s
                     (rename_of host files repo p ref) a))).
Proof.
  unfold rename_of, titled. destruct files as [fs|]; [|by eexists].
  destruct (list_find _ fs) as [[i [pe [o|]]]|]; by eexists.
Qed.

(** C2: when a request is dispatched after a reference pick that is a
    remote-tracking branch named [B], the left-hand sha is ["remotes/" + B]
    while the title and the diff-status query use [B]; after any other
    reference pick, and after any stash pick, the sha, the title and the
    query all use the pick's reference. *)
Theorem remote_branch_resolution host editor uri0 args h payload :
  payload ∈ dispatched (trace_of (execute host editor uri0 args h)) →
  (∀ repo pt ph opts pick,
     EvReferencePicker repo pt ph opts
       ∈ trace_of (execute host editor uri0 args h) →
     showReferencePicker host repo pt ph opts = Fulfilled (Some pick) →
     (∀ B, pick = GitBranchReference B true →
        sha (lhs payload) = "remotes/" +:+ B ∧
        (∃ name, titled host name B (title (lhs payload))) ∧
        diff_queries (trace_of (execute host editor uri0 args h))
          = [(repo, "HEAD", B, ["R"; "C"])]) ∧
     ((∀ B, pick ≠ GitBranchReference B true) →
        sha (lhs payload) = gr_ref pick ∧
        (∃ name, titled host name (gr_ref pick) (title (lhs payload))) ∧
        diff_queries (trace_of (execute host editor uri0 args h))
          = [(repo, "HEAD", gr_ref pick, ["R"; "C"])])) ∧
  (∀ stashes pt ph opts pick,
     EvStashPicker stashes pt ph opts
       ∈ trace_of (execute host editor uri0 args h) →
     showStashPicker host stashes pt ph opts = Fulfilled (Some pick) →
     sha (lhs payload) = sc_ref pick ∧
     (∃ name, titled host name (sc_ref pick) (title (lhs payload))) ∧
     ∃ repo,
       diff_queries (trace_of (execute host editor uri0 args h))
         = [(repo, "HEAD", sc_ref pick, ["R"; "C"])]).
Proof.
  exit_cases host editor uri0 args h; intros Hin; in_trace Hin.
  all: split;
    [ intros repo pt ph opts pick Hev Hpick
    | intros stashes pt ph opts pick Hev Hpick ];
    in_trace Hev.
  all: assert (xpick = pick) as -> by congruence.
  (* stash mode *)
  all: try (split; [done|]; split; [apply title_shows_ref | by eexists]).
  (* reference mode *)
  split.
  - intros B ->. split; [done|]. split; [apply title_shows_ref | done].
  - intros Hother. split; [|split; [apply title_shows_ref | done]].
    destruct pick as [B [|]| | |]; simpl; try done.
    by destruct (Hother B).
Qed.

Lemma remote_branch_resolution_witness :
  ∃ payload,
    payload ∈ dispatched
      (trace_of (execute remote_branch_host None (Some demo_uri) None ∅)) ∧
    sha (lhs payload) = "remotes/origin/main"%string ∧
    (∃ name, titled remote_branch_host name "origin/main"
               (title (lhs payload))) ∧
    diff_queries
      (trace_of (execute remote_branch_host None (Some demo_uri) None ∅))
      = [("/repo", "HEAD", "origin/main", ["R"; "C"])]%string.
Proof.
  eexists. split; [vm_compute; apply list_elem_of_here|].
  match goal with
  | |- sha (lhs ?p) = _ ∧ _ =>
      destruct (remote_branch_resolution remote_branch_host None
                  (Some demo_uri) None ∅ p) as [Href _]
  end.
  { vm_compute. apply list_elem_of_here. }
  eapply Href; [|reflexivity..].
  vm_compute. trace_has.
Defined.

(** ** The diff-status query *)

(** C3, as amended: once a picker has given a selection, exactly one
    diff-status query is issued; it runs in the file's repository, from
    ["HEAD"] to the reference as picked (the display revision, without the
    ["remotes/"] prefix that the left-hand sha of a remote-tracking branch
    gets), with the filters R and C only. *)
Theorem diff_status_query host editor uri0 args h :
  (∀ repo pt ph opts pick,
     EvReferencePicker repo pt ph opts
       ∈ trace_of (execute host editor uri0 args h) →
     showReferencePicker host repo pt ph opts = Fulfilled (Some pick) →
     (∃ u g, Resolved host editor uri0 u g repo) ∧
     diff_queries (trace_of (execute host editor uri0 args h))
       = [(repo, "HEAD", gr_ref pick, ["R"; "C"])]) ∧
  (∀ stashes pt ph opts pick,
     EvStashPicker stashes pt ph opts
       ∈ trace_of (execute host editor uri0 args h) →
     showStashPicker host stashes pt ph opts = Fulfilled (Some pick) →
     ∃ u g repo, Resolved host editor uri0 u g repo ∧
       diff_queries (trace_of (execute host editor uri0 args h))
         = [(repo, "HEAD", sc_ref pick, ["R"; "C"])]).
Proof.
  exit_cases host editor uri0 args h.
  all: split;
    [ intros repo pt ph opts pick Hev Hpick
    | intros stashes pt ph opts pick Hev Hpick ];
    in_trace Hev; try congruence.
  all: assert (xpick = pick) as -> by congruence; eauto 6.
Qed.

Lemma diff_status_query_witness :
  (∃ u g, Resolved remote_branch_host None (Some demo_uri) u g "/repo") ∧
  diff_queries
    (trace_of (execute remote_branch_host None (Some demo_uri) None ∅))
    = [("/repo", "HEAD", "origin/main", ["R"; "C"])]%string.
Proof.
  destruct (diff_status_query remote_branch_host None (Some demo_uri) None ∅)
    as [Href _].
  eapply (Href _ _ _ _ (GitBranchReference "origin/main" true));
    [|reflexivity].
  vm_compute. trace_has.
Defined.

(** The claim C3 as it is written has the query run against the revision
    used as left-hand sha.  For the remote-tracking branch [origin/main]
    the sha is [remotes/origin/main] and the query asks for
    [origin/main]. *)
Lemma diff_status_on_sha_counterexample :
  showReferencePicker remote_branch_host "/repo"
    (picker_title remote_branch_host (reference_title remote_branch_host)
       demo_gitUri)
    reference_placeholder {| allowRevisions := true |}
    = Fulfilled (Some (GitBranchReference "origin/main" true)) ∧
  ∃ payload,
    dispatched
      (trace_of (execute remote_branch_host None (Some demo_uri) None ∅))
      = [payload] ∧
    sha (lhs payload) = "remotes/origin/main"%string ∧
    diff_queries
      (trace_of (execute remote_branch_host None (Some demo_uri) None ∅))
      = [("/repo", "HEAD", "origin/main", ["R"; "C"])]%string ∧
    ¬ (∃ repo filters,
         (repo, "HEAD"%string, sha (lhs payload), filters)
           ∈ diff_queries
               (trace_of
                  (execute remote_branch_host None (Some demo_uri) None ∅))).
Proof.
  split; [done|]. eexists. split; [by vm_compute|].
  split; [done|]. split; [by vm_compute|].
  intros (repo & filters & Hin). vm_compute in Hin.
  apply list_elem_of_singleton in Hin. discriminate Hin.
Qed.

Lemma rename_of_applied host g repo ref sha files a :
  rename_applied host g repo ref files
    (diffWith_args host g repo ref sha
       (rename_of host files repo (getRelativePath host g repo) ref) a).
Proof.
  split.
  - intros fs e o Hfs Hfirst Ho.
    by rewrite (rename_of_first host _ _ _ _ _ _ _ Hfs Hfirst Ho).
  - intros Hnone. by rewrite (rename_of_none host _ _ _ _ Hnone).
Qed.

(** C9: once a picker has given a selection, in stash mode as in reference
    mode, the rename-status check comes before any dispatch: the
    diff-status query for the picked reference is in the trace with nothing
    dispatched before it; when the query is rejected nothing is dispatched
    after it either, and when it is fulfilled exactly one request follows,
    whose left-hand uri and title are the outcome of the lookup in the
    query's answer (the original path of the first entry for the file's
    path, or the current file when there is none). *)
Theorem rename_check_before_dispatch host editor uri0 args h :
  (∀ repo pt ph opts pick,
     EvReferencePicker repo pt ph opts
       ∈ trace_of (execute host editor uri0 args h) →
     showReferencePicker host repo pt ph opts = Fulfilled (Some pick) →
     ∃ u g before after,
       Resolved host editor uri0 u g repo ∧
       trace_of (execute host editor uri0 args h)
         = before ++ EvDiffStatus repo "HEAD" (gr_ref pick) ["R"; "C"]
             :: after ∧
       dispatched before = [] ∧
       match getDiffStatus host repo "HEAD" (gr_ref pick) ["R"; "C"] with
       | Fulfilled files =>
           ∃ payload,
             dispatched after = [payload] ∧
             rename_applied host g repo (gr_ref pick) files payload
       | Rejected _ => dispatched after = []
       end) ∧
  (∀ stashes pt ph opts pick,
     EvStashPicker stashes pt ph opts
       ∈ trace_of (execute host editor uri0 args h) →
     showStashPicker host stashes pt ph opts = Fulfilled (Some pick) →
     ∃ u g repo before after,
       Resolved host editor uri0 u g repo ∧
       trace_of (execute host editor uri0 args h)
         = before ++ EvDiffStatus repo "HEAD" (sc_ref pick) ["R"; "C"]
             :: after ∧
       dispatched before = [] ∧
       match getDiffStatus host repo "HEAD" (sc_ref pick) ["R"; "C"] with
       | Fulfilled files =>
           ∃ payload,
             dispatched after = [payload] ∧
             rename_applied host g repo (sc_ref pick) files payload
       | Rejected _ => dispatched after = []
       end).
Proof.
  exit_cases host editor uri0 args h.
  all: split;
    [ intros repo pt ph opts pick Hev Hpick
    | intros stashes pt ph opts pick Hev Hpick ];
    in_trace Hev; try congruence.
  all: assert (xpick = pick) as -> by congruence.
  all: first
    [ eexists xu, xg, [_; _], _;
      split; [exact Hres|]; split; [reflexivity|]
    | eexists xu, xg, xrepo, [_; _], _;
      split; [exact Hres|]; split; [reflexivity|]
    | eexists xu, xg, xrepo, [_; _; _], _;
      split; [exact Hres|]; split; [reflexivity|] ].
  all: split; [done|]; rewrite Hstatus; try done.
  all: eexists; split; [reflexivity | apply rename_of_applied].
Qed.

Lemma rename_check_before_dispatch_witness :
  ∃ u g repo before after,
    Resolved stash_renamed_host None (Some demo_uri) u g repo ∧
    trace_of (execute stash_renamed_host None (Some demo_uri)
                (Some 1%positive) (caller_heap true))
      = before ++ EvDiffStatus repo "HEAD" "stash@{0}" ["R"; "C"] :: after ∧
    dispatched before = [] ∧
    ∃ payload,
      dispatched after = [payload] ∧
      uri (lhs payload) = PlainUri {| fsPath := "/repo/old/a.ts" |} ∧
      title (lhs payload) = Some "a.ts (stash@{0})"%string.
Proof.
  destruct (rename_check_before_dispatch stash_renamed_host None
              (Some demo_uri) (Some 1%positive) (caller_heap true))
    as [_ Hstash].
  destruct (Hstash (Some (Fulfilled None))
              (picker_title stash_renamed_host
                 (stash_title stash_renamed_host) demo_gitUri)
              stash_placeholder
              (stash_options stash_renamed_host demo_gitUri "a.ts")
              stash_zero)
    as (u & g & repo & before & after & Hres & Htrace & Hbefore & Hafter).
  { vm_compute. trace_has. }
  { reflexivity. }
  exists u, g, repo, before, after.
  split; [exact Hres|]. split; [exact Htrace|]. split; [exact Hbefore|].
  destruct Hres as (Hu & Hg & Hr).
  vm_compute in Hu. simplify_eq. vm_compute in Hg. simplify_eq.
  vm_compute in Hr. simplify_eq.
  change (getDiffStatus stash_renamed_host "/repo" "HEAD"
            (sc_ref stash_zero) ["R"; "C"])
    with (Fulfilled
            (Some [ {| path := "a.ts";
                       originalPath := Some "old/a.ts"%string |} ]))
    in Hafter.
  destruct Hafter as (payload & Hpayload & Hrenamed & _).
  exists payload. split; [exact Hpayload|].
  assert (first_entry_for "a.ts"
            [ {| path := "a.ts"; originalPath := Some "old/a.ts"%string |} ]
            {| path := "a.ts"; originalPath := Some "old/a.ts"%string |})
    as Hfirst.
  { exists 0%nat. split; [done|]. split; [done|]. intros j y _ Hj. lia. }
  exact (Hrenamed _ _ _ eq_refl Hfirst eq_refl).
Defined.

(** ** Exits without a request *)

(** C4: when the picker, in stash mode or in reference mode, gives no
    selection, the run ends by [return] (no exception), nothing is
    dispatched and no message is shown. *)
Theorem cancelled_pick_returns host editor uri0 args h :
  (∀ repo pt ph opts,
     EvReferencePicker repo pt ph opts
       ∈ trace_of (execute host editor uri0 args h) →
     showReferencePicker host repo pt ph opts = Fulfilled None →
     outcome_of (execute host editor uri0 args h) = Returned ∧
     dispatched (trace_of (execute host editor uri0 args h)) = [] ∧
     warnings (trace_of (execute host editor uri0 args h)) = []) ∧
  (∀ stashes pt ph opts,
     EvStashPicker stashes pt ph opts
       ∈ trace_of (execute host editor uri0 args h) →
     showStashPicker host stashes pt ph opts = Fulfilled None →
     outcome_of (execute host editor uri0 args h) = Returned ∧
     dispatched (trace_of (execute host editor uri0 args h)) = [] ∧
     warnings (trace_of (execute host editor uri0 args h)) = []).
Proof.
  exit_cases host editor uri0 args h.
  all: split;
    [ intros repo pt ph opts Hev Hpick
    | intros stashes pt ph opts Hev Hpick ];
    in_trace Hev; first [congruence | done].
Qed.

Lemma cancelled_pick_returns_witness :
  outcome_of (execute cancel_host None (Some demo_uri) (Some 1%positive)
                (caller_heap true)) = Returned ∧
  dispatched (trace_of (execute cancel_host None (Some demo_uri)
                          (Some 1%positive) (caller_heap true))) = [] ∧
  warnings (trace_of (execute cancel_host None (Some demo_uri)
                        (Some 1%positive) (caller_heap true))) = [].
Proof.
  destruct (cancelled_pick_returns cancel_host None (Some demo_uri) (Some 1%positive)
              (caller_heap true)) as [_ Hstash].
  eapply Hstash; [|reflexivity].
  vm_compute. trace_has.
Defined.

(** C6: when the file's git uri has no repository path ([repoPath] is
    missing or empty), the warning "Unable to open file comparison" is
    shown once and the run returns: the uri was looked up once, nothing is
    dispatched and the heap is as it was. *)
Theorem no_repository_warns host editor uri0 args h u g :
  getCommandUri host uri0 editor = Some u →
  GitUri_fromUri host u = Fulfilled g →
  repoPath g = None ∨ repoPath g = Some ""%string →
  outcome_of (execute host editor uri0 args h) = Returned ∧
  heap_of (execute host editor uri0 args h) = h ∧
  trace_of (execute host editor uri0 args h)
    = [EvFromUri u; EvNoRepositoryWarning "Unable to open file comparison"].
Proof.
  intros Hu Hg Hrepo.
  assert (js_truthy (repoPath g) = None) as Hfalsy
    by (destruct Hrepo as [-> | ->]; done).
  change (wp (execute host editor uri0 args) h (λ c h' t,
    c = Returned ∧ h' = h ∧
    t = [EvFromUri u;
         EvNoRepositoryWarning "Unable to open file comparison"])).
  unfold execute. rewrite Hu.
  apply wp_bind, wp_emit, wp_bind, wp_await. rewrite Hg, Hfalsy.
  by apply wp_bind, wp_emit, wp_early_return.
Qed.

Lemma no_repository_warns_witness :
  outcome_of (execute cancel_host None (Some {| fsPath := "/tmp/a.ts" |})
                None ∅) = Returned ∧
  heap_of (execute cancel_host None (Some {| fsPath := "/tmp/a.ts" |})
             None ∅) = ∅ ∧
  trace_of (execute cancel_host None (Some {| fsPath := "/tmp/a.ts" |})
              None ∅)
    = [EvFromUri {| fsPath := "/tmp/a.ts" |};
       EvNoRepositoryWarning "Unable to open file comparison"].
Proof.
  apply (no_repository_warns cancel_host None (Some {| fsPath := "/tmp/a.ts" |})
           None ∅ {| fsPath := "/tmp/a.ts" |}
           {| gitUri_base := {| fsPath := "/tmp/a.ts" |};
              repoPath := None |}).
  - reflexivity.
  - reflexivity.
  - left. reflexivity.
Defined.

(** ** The right-hand side *)

(** C7: in every dispatched request the right-hand sha is the empty string
    and the right-hand uri is the git uri of the current file, as
    [GitUri.fromUri] gave it. *)
Theorem rhs_is_working_tree host editor uri0 args h payload :
  payload ∈ dispatched (trace_of (execute host editor uri0 args h)) →
  ∃ u g repo,
    Resolved host editor uri0 u g repo ∧
    sha (rhs payload) = ""%string ∧
    uri (rhs payload) = RepoUri g.
Proof.
  exit_cases host editor uri0 args h; intros Hin; in_trace Hin.
  all: by exists xu, xg, xrepo.
Qed.

Lemma rhs_is_working_tree_witness :
  ∃ payload,
    payload ∈ dispatched
      (trace_of (execute stash_host None (Some demo_uri) (Some 1%positive)
                   (caller_heap true))) ∧
    ∃ u g repo,
      Resolved stash_host None (Some demo_uri) u g repo ∧
      sha (rhs payload) = ""%string ∧
      uri (rhs payload) = RepoUri g.
Proof.
  eexists. split; [vm_compute; apply list_elem_of_here|].
  apply (rhs_is_working_tree stash_host None (Some demo_uri)
           (Some 1%positive) (caller_heap true)).
  vm_compute. apply list_elem_of_here.
Defined.

(** ** The stash picker *)

Lemma stash_filter_known p c fs :
  sc_files c = Some fs →
  stash_filter p c = true ↔
  ∃ f, f ∈ fs ∧ (path f = p ∨ originalPath f = Some p).
Proof.
  intros Hfs. unfold stash_filter. rewrite Hfs, existsb_exists.
  split; intros (f & Hf & Hmatch); exists f.
  - split; [by apply list_elem_of_In|].
    apply orb_prop in Hmatch as [Hpath | Horig].
    + left. by apply String.eqb_eq.
    + right. destruct (originalPath f) as [o|]; [|done].
      by apply String.eqb_eq in Horig as ->.
  - split; [by apply list_elem_of_In|].
    destruct Hmatch as [Hpath | Horig].
    + apply orb_true_intro. left. by apply String.eqb_eq.
    + apply orb_true_intro. right. rewrite Horig. by apply String.eqb_eq.
Qed.

(** C5: the filter handed to the stash picker accepts every stash whose
    file list is missing, and accepts a stash with a known list exactly
    when some file of the list has the target path as its path or as its
    original path. *)
Theorem stash_filter_permissive host editor uri0 args h stashes pt ph opts :
  EvStashPicker stashes pt ph opts
    ∈ trace_of (execute host editor uri0 args h) →
  ∃ u g repo,
    Resolved host editor uri0 u g repo ∧
    ∀ c,
      (sc_files c = None → spo_filter opts c = true) ∧
      (∀ fs, sc_files c = Some fs →
         spo_filter opts c = true ↔
         ∃ f, f ∈ fs ∧
           (path f = getRelativePath host g repo ∨
            originalPath f = Some (getRelativePath host g repo))).
Proof.
  exit_cases host editor uri0 args h; intros Hev; in_trace Hev.
  all: exists xu, xg, xrepo; split; [done|]; intros c; split;
    [ unfold stash_options, stash_filter; simpl; by intros ->
    | intros fs Hfs; by apply stash_filter_known ].
Qed.

Lemma stash_filter_permissive_witness :
  ∃ u g repo,
    Resolved stash_host None (Some demo_uri) u g repo ∧
    ∀ c,
      (sc_files c = None →
       spo_filter (stash_options stash_host demo_gitUri "a.ts") c = true) ∧
      (∀ fs, sc_files c = Some fs →
         spo_filter (stash_options stash_host demo_gitUri "a.ts") c = true ↔
         ∃ f, f ∈ fs ∧
           (path f = getRelativePath stash_host g repo ∨
            originalPath f = Some (getRelativePath stash_host g repo))).
Proof.
  eapply (stash_filter_permissive stash_host None (Some demo_uri)
            (Some 1%positive) (caller_heap true)).
  vm_compute. trace_has.
Defined.




(** ** The caller's arguments *)

(** C10: every object of the heap, the caller's [args] among them, is the
    same after the run as before: the defaults are written to the copy
    made by [{ ...args }]. *)
Theorem caller_args_untouched host editor uri0 args h l o :
  h !! l = Some o →
  heap_of (execute host editor uri0 args h) !! l = Some o.
Proof.
  intros Hl. by apply (execute_wp host editor uri0 args h).
Qed.

Lemma caller_args_untouched_witness :
  caller_heap true !! 1%positive = Some (caller_args true) ∧
  heap_of (execute stash_host (Some demo_editor) None (Some 1%positive)
             (caller_heap true)) !! 1%positive
    = Some {| line := None; showOptions := Some 7%positive;
              stash := Some true |}.
Proof.
  split; [reflexivity|].
  apply (caller_args_untouched stash_host (Some demo_editor) None
           (Some 1%positive) (caller_heap true) 1%positive
           (caller_args true)).
  reflexivity.
Defined.

(** ** Further properties of [execute]

    The heap after a run, the order of the calls, how rejections of the
    collaborators propagate, and what the request forwards. *)

Ltac exit_cases' host editor uri0 args h :=
  exit_cases host editor uri0 args h;
  cbn [app picker_events omap list_omap] in *.

(** Two resolutions of the same invocation agree. *)
Lemma Resolved_functional host editor uri0 u g repo u' g' repo' :
  Resolved host editor uri0 u g repo →
  Resolved host editor uri0 u' g' repo' →
  u = u' ∧ g = g' ∧ repo = repo'.
Proof.
  intros (Hu & Hg & Hr) (Hu' & Hg' & Hr').
  assert (u = u') as <- by congruence.
  assert (g = g') as <- by congruence.
  split; [done|]. split; [done|]. congruence.
Qed.

(** The heap after a run: untouched when the file or its repository is
    not found, and otherwise the heap with the copy of [args] added. *)
Lemma execute_heap_shape host editor uri0 args h :
  wp (execute host editor uri0 args) h (λ _ h' _,
    (∃ u g repo l,
       Resolved host editor uri0 u g repo ∧ h !! l = None ∧
       h' = <[l := with_line editor (copied h args)]> h) ∨
    ((∀ u g repo, ¬ Resolved host editor uri0 u g repo) ∧ h' = h)).
Proof.
  unfold execute.
  destruct (getCommandUri host uri0 editor) as [u|] eqn:Hu.
  2: { apply wp_early_return. right. split; [|done].
       intros u g repo (Hu' & _). congruence. }
  apply wp_bind, wp_emit, wp_bind, wp_await.
  destruct (GitUri_fromUri host u) as [g|e] eqn:Hg.
  2: { right. split; [|done]. intros u' g' repo (Hu' & Hg' & _). congruence. }
  destruct (js_truthy (repoPath g)) as [repo|] eqn:Hrepo.
  2: { apply wp_bind, wp_emit, wp_early_return. right. split; [|done].
       intros u' g' repo (Hu' & Hg' & Hr'). congruence. }
  assert (Hres : Resolved host editor uri0 u g repo) by done.
  apply wp_bind, wp_spread. intros l Hl.
  apply wp_bind, wp_load. rewrite deref_insert.
  apply wp_bind. eapply wp_mono; [apply wp_default_line|].
  cbv beta. intros c h1 t [-> [-> ->]].
  apply wp_bind, wp_load. rewrite deref_insert.
  apply wp_bind, wp_pick_revision.
  2: { intros ev c Hun. destruct Hun; left; by exists u, g, repo, l. }
  intros ev ref sha Hpick.
  apply wp_bind, wp_emit, wp_bind, wp_await.
  destruct (getDiffStatus host repo "HEAD" ref ["R"; "C"]) as [files|e];
    [|left; by exists u, g, repo, l].
  apply wp_bind, wp_load. rewrite deref_insert.
  apply wp_bind, wp_emit, wp_await.
  match goal with
  | |- context [executeCommand host ?c ?p] =>
      destruct (executeCommand host c p) as [[]|e]
  end; left; by exists u, g, repo, l.
Qed.

(** The exit of a run is determined by the collaborators and the copy of
    [args]. *)
Lemma Exit_functional host editor uri0 a c t c' t' :
  Exit host editor uri0 a c t → Exit host editor uri0 a c' t' →
  c = c' ∧ t = t'.
Proof.
  intros H1 H2.
  destruct H1 as
    [ Huri | u e Huri Hlookup | u g Huri Hlookup Hrepo
    | u g repo ev c1 Hres Hun
    | u g repo ev ref sha e Hres Hpicked Hstatus
    | u g repo ev ref sha files payload Hres Hpicked Hstatus Hpayload ];
  destruct H2 as
    [ Huri' | u' e' Huri' Hlookup' | u' g' Huri' Hlookup' Hrepo'
    | u' g' repo' ev' c1' Hres' Hun'
    | u' g' repo' ev' ref' sha' e' Hres' Hpicked' Hstatus'
    | u' g' repo' ev' ref' sha' files' payload' Hres' Hpicked' Hstatus'
        Hpayload' ];
  try (destruct Hres as (? & ? & ?));
  try (destruct Hres' as (? & ? & ?));
  try done; try congruence.
  all: assert (u = u') as <- by congruence.
  all: try (assert (g = g') as <- by congruence).
  all: try (assert (repo = repo') as <- by congruence).
  all: try (split; congruence).
  all: repeat match goal with
       | H : Picked _ _ _ _ _ _ _ _ |- _ => destruct H
       | H : Unpicked _ _ _ _ _ _ _ |- _ => destruct H
       end;
    unfold stash_answer, reference_answer in *; try congruence.
  all: repeat match goal with
       | H1 : ?x = Fulfilled (Some ?p), H2 : ?x = Fulfilled (Some ?q) |- _ =>
           assert (p = q) as <- by congruence; clear H2
       end.
  all: try (assert (files = files') as <- by congruence).
  all: subst; split; congruence.
Qed.

Lemma stash_with_line editor a : stash (with_line editor a) = stash a.
Proof. unfold with_line. by destruct (line a). Qed.

(** X1: when the file or its repository cannot be determined, the run
    shows no picker, issues no diff-status query, dispatches nothing, does
    not complete normally and leaves the heap as it was. *)
Theorem nothing_without_repository host editor uri0 args h :
  (∀ u g repo, ¬ Resolved host editor uri0 u g repo) →
  heap_of (execute host editor uri0 args h) = h ∧
  picker_events (trace_of (execute host editor uri0 args h)) = [] ∧
  diff_queries (trace_of (execute host editor uri0 args h)) = [] ∧
  dispatched (trace_of (execute host editor uri0 args h)) = [] ∧
  outcome_of (execute host editor uri0 args h) ≠ Normal tt.
Proof.
  intros Hnone. split.
  { destruct (execute_heap_shape host editor uri0 args h)
      as [(u & g & repo & l & Hres & _) | [_ Hh]]; [|done].
    by destruct (Hnone u g repo). }
  exit_cases' host editor uri0 args h; try done.
  all: by destruct (Hnone xu xg xrepo).
Qed.

Lemma nothing_without_repository_witness :
  heap_of (execute stash_host None (Some {| fsPath := "/tmp/a.ts" |})
             (Some 1%positive) (caller_heap true)) = caller_heap true ∧
  picker_events (trace_of (execute stash_host None
                   (Some {| fsPath := "/tmp/a.ts" |})
                   (Some 1%positive) (caller_heap true))) = [] ∧
  diff_queries (trace_of (execute stash_host None
                  (Some {| fsPath := "/tmp/a.ts" |})
                  (Some 1%positive) (caller_heap true))) = [] ∧
  dispatched (trace_of (execute stash_host None
                (Some {| fsPath := "/tmp/a.ts" |})
                (Some 1%positive) (caller_heap true))) = [] ∧
  outcome_of (execute stash_host None (Some {| fsPath := "/tmp/a.ts" |})
                (Some 1%positive) (caller_heap true)) ≠ Normal tt.
Proof.
  apply (nothing_without_repository stash_host None
           (Some {| fsPath := "/tmp/a.ts" |}) (Some 1%positive)
           (caller_heap true)).
  intros u g repo (Hu & Hg & Hr).
  vm_compute in Hu. simplify_eq. vm_compute in Hg. by simplify_eq.
Defined.

(** X2: the request carries the caller's [line] when there is one (also
    when it is 0), else the line of the editor's selection, else 0; it
    carries the caller's [showOptions] as they are, and the repository
    path of the file. *)
Theorem request_forwards_line_and_options host editor uri0 args h payload :
  payload ∈ dispatched (trace_of (execute host editor uri0 args h)) →
  dw_line payload
    = Some (match line (copied h args) with
            | Some n => n
            | None =>
                match editor with
                | Some e => selection_active_line e
                | None => 0
                end
            end) ∧
  dw_showOptions payload = showOptions (copied h args) ∧
  ∃ u g, Resolved host editor uri0 u g (dw_repoPath payload).
Proof.
  exit_cases' host editor uri0 args h; intros Hin; in_trace Hin.
  all: unfold diffWith_args, with_line; simpl.
  all: destruct (line (copied h args)) as [n|] eqn:Hline; simpl;
    rewrite ?Hline; destruct editor; eauto.
Qed.

Lemma request_forwards_line_and_options_witness :
  ∃ payload,
    payload ∈ dispatched
      (trace_of (execute stash_host (Some demo_editor) None
                   (Some 1%positive) (caller_heap true))) ∧
    dw_line payload = Some 12 ∧
    dw_showOptions payload = Some 7%positive ∧
    ∃ u g, Resolved stash_host (Some demo_editor) None u g
             (dw_repoPath payload).
Proof.
  eexists. split; [vm_compute; apply list_elem_of_here|].
  apply (request_forwards_line_and_options stash_host (Some demo_editor)
           None (Some 1%positive) (caller_heap true)).
  vm_compute. apply list_elem_of_here.
Defined.

(** X3: once the repository is known, exactly one picker is shown: the
    stash picker when the caller's [stash] flag is true, the reference
    picker when the flag is false or missing. *)
Theorem one_picker_by_mode host editor uri0 args h u g repo :
  Resolved host editor uri0 u g repo →
  picker_events (trace_of (execute host editor uri0 args h))
    = [ if default false (stash (copied h args))
        then stash_event host g repo (getRelativePath host g repo)
        else reference_event host g repo ].
Proof.
  intros Hfound. exit_cases' host editor uri0 args h.
  all: try (destruct Hfound as (? & ? & ?); congruence).
  all: destruct (Resolved_functional _ _ _ _ _ _ _ _ _ Hfound Hres)
         as (<- & <- & <-).
  all: rewrite stash_with_line in Hmode; rewrite Hmode.
  all: try rewrite Hprovider; done.
Qed.

Lemma one_picker_by_mode_witness :
  picker_events
    (trace_of (execute local_branch_host (Some demo_editor) None None ∅))
    = [ reference_event local_branch_host demo_gitUri "/repo" ].
Proof.
  apply (one_picker_by_mode local_branch_host (Some demo_editor) None None ∅
           demo_uri demo_gitUri "/repo").
  by vm_compute.
Defined.

(** X4: a run dispatches at most one request, always to
    [gitlens.diffWith]; when it does, the calls it has recorded are, in
    this order and nothing else: the uri lookup, in stash mode the fetch
    of the stash list (when the repository has a stash provider), one
    picker, the diff-status query and the request. *)
Theorem dispatch_ends_the_pipeline host editor uri0 args h command payload :
  EvExecuteCommand command payload
    ∈ trace_of (execute host editor uri0 args h) →
  command = "gitlens.diffWith"%string ∧
  dispatched (trace_of (execute host editor uri0 args h)) = [payload] ∧
  ∃ u g repo ev ref,
    Resolved host editor uri0 u g repo ∧
    picker_events [ev] = [ev] ∧
    trace_of (execute host editor uri0 args h)
      = EvFromUri u
        :: (if default false (stash (copied h args))
            then match git_stash_getStash host repo with
                 | Some _ => [EvGetStash repo]
                 | None => []
                 end
            else [])
        ++ [ ev; EvDiffStatus repo "HEAD" ref ["R"; "C"];
             EvExecuteCommand "gitlens.diffWith" payload ].
Proof.
  exit_cases' host editor uri0 args h; intros Hin; in_trace Hin.
  all: split; [done|]; split; [done|].
  all: eexists xu, xg, xrepo, _, _; split; [exact Hres|].
  all: rewrite stash_with_line in Hmode; rewrite Hmode.
  all: try rewrite Hprovider; refine (conj _ eq_refl); reflexivity.
Qed.

Lemma dispatch_ends_the_pipeline_witness :
  ∃ payload ev ref,
    dispatched (trace_of (execute stash_host None (Some demo_uri)
                            (Some 1%positive) (caller_heap true)))
      = [payload] ∧
    picker_events [ev] = [ev] ∧
    trace_of (execute stash_host None (Some demo_uri) (Some 1%positive)
                (caller_heap true))
      = [ EvFromUri demo_uri; EvGetStash "/repo"; ev;
          EvDiffStatus "/repo" "HEAD" ref ["R"; "C"];
          EvExecuteCommand "gitlens.diffWith" payload ].
Proof.
  eexists.
  edestruct (dispatch_ends_the_pipeline stash_host None (Some demo_uri)
               (Some 1%positive) (caller_heap true) "gitlens.diffWith")
    as (_ & Hone & u & g & repo & ev & ref & Hres & Hev & Htrace).
  { vm_compute. trace_has. }
  destruct Hres as (Hu & Hg & Hr).
  vm_compute in Hu. simplify_eq. vm_compute in Hg. simplify_eq.
  vm_compute in Hr. simplify_eq.
  exists ev, ref. split; [exact Hone|]. split; [exact Hev | exact Htrace].
Defined.

(** X5: when [GitUri.fromUri] rejects, the run throws the same reason
    after that one call, and the heap is as it was. *)
Theorem lookup_rejection_propagates host editor uri0 args h u e :
  getCommandUri host uri0 editor = Some u →
  GitUri_fromUri host u = Rejected e →
  outcome_of (execute host editor uri0 args h) = Thrown e ∧
  heap_of (execute host editor uri0 args h) = h ∧
  trace_of (execute host editor uri0 args h) = [EvFromUri u].
Proof.
  intros Hu Hg.
  change (wp (execute host editor uri0 args) h (λ c h' t,
    c = Thrown e ∧ h' = h ∧ t = [EvFromUri u])).
  unfold execute. rewrite Hu.
  apply wp_bind, wp_emit, wp_bind, wp_await. by rewrite Hg.
Qed.

Lemma lookup_rejection_propagates_witness :
  outcome_of (execute (host_with_lookup stash_host (λ _, Rejected "EIO"))
                None (Some demo_uri) (Some 1%positive) (caller_heap true))
    = Thrown "EIO" ∧
  heap_of (execute (host_with_lookup stash_host (λ _, Rejected "EIO"))
             None (Some demo_uri) (Some 1%positive) (caller_heap true))
    = caller_heap true ∧
  trace_of (execute (host_with_lookup stash_host (λ _, Rejected "EIO"))
              None (Some demo_uri) (Some 1%positive) (caller_heap true))
    = [EvFromUri demo_uri].
Proof.
  apply (lookup_rejection_propagates
           (host_with_lookup stash_host (λ _, Rejected "EIO"))
           None (Some demo_uri) (Some 1%positive) (caller_heap true)
           demo_uri "EIO").
  - reflexivity.
  - reflexivity.
Defined.

(** X6: when the picker of either mode rejects, the run throws the same
    reason; no diff-status query is issued and nothing is dispatched. *)
Theorem picker_rejection_propagates host editor uri0 args h e :
  (∀ repo pt ph opts,
     EvReferencePicker repo pt ph opts
       ∈ trace_of (execute host editor uri0 args h) →
     showReferencePicker host repo pt ph opts = Rejected e →
     outcome_of (execute host editor uri0 args h) = Thrown e ∧
     diff_queries (trace_of (execute host editor uri0 args h)) = [] ∧
     dispatched (trace_of (execute host editor uri0 args h)) = []) ∧
  (∀ stashes pt ph opts,
     EvStashPicker stashes pt ph opts
       ∈ trace_of (execute host editor uri0 args h) →
     showStashPicker host stashes pt ph opts = Rejected e →
     outcome_of (execute host editor uri0 args h) = Thrown e ∧
     diff_queries (trace_of (execute host editor uri0 args h)) = [] ∧
     dispatched (trace_of (execute host editor uri0 args h)) = []).
Proof.
  exit_cases' host editor uri0 args h.
  all: split;
    [ intros repo pt ph opts Hev Hpick
    | intros stashes pt ph opts Hev Hpick ];
    in_trace Hev; try congruence.
  all: split; [congruence | done].
Qed.

Lemma picker_rejection_propagates_witness :
  outcome_of
    (execute (demo_host (Rejected "closed") (Fulfilled None) (Fulfilled None))
       None (Some demo_uri) (Some 1%positive) (caller_heap true))
    = Thrown "closed" ∧
  diff_queries
    (trace_of
       (execute (demo_host (Rejected "closed") (Fulfilled None)
                   (Fulfilled None))
          None (Some demo_uri) (Some 1%positive) (caller_heap true))) = [] ∧
  dispatched
    (trace_of
       (execute (demo_host (Rejected "closed") (Fulfilled None)
                   (Fulfilled None))
          None (Some demo_uri) (Some 1%positive) (caller_heap true))) = [].
Proof.
  destruct (picker_rejection_propagates
              (demo_host (Rejected "closed") (Fulfilled None)
                 (Fulfilled None))
              None (Some demo_uri) (Some 1%positive) (caller_heap true)
              "closed") as [_ Hstash].
  eapply Hstash; [|reflexivity].
  vm_compute. trace_has.
Defined.

(** X7: when the diff-status query rejects, the run throws the same reason
    and nothing is dispatched. *)
Theorem query_rejection_propagates host editor uri0 args h repo r1 r2 fl e :
  (repo, r1, r2, fl)
    ∈ diff_queries (trace_of (execute host editor uri0 args h)) →
  getDiffStatus host repo r1 r2 fl = Rejected e →
  outcome_of (execute host editor uri0 args h) = Thrown e ∧
  dispatched (trace_of (execute host editor uri0 args h)) = [].
Proof.
  exit_cases' host editor uri0 args h; intros Hin Hq; in_trace Hin.
  all: first [congruence | split; [congruence | done]].
Qed.

Lemma query_rejection_propagates_witness :
  outcome_of
    (execute (demo_host (Fulfilled (Some stash_zero)) (Fulfilled None)
                (Rejected "fatal: bad revision"))
       None (Some demo_uri) (Some 1%positive) (caller_heap true))
    = Thrown "fatal: bad revision" ∧
  dispatched
    (trace_of
       (execute (demo_host (Fulfilled (Some stash_zero)) (Fulfilled None)
                   (Rejected "fatal: bad revision"))
          None (Some demo_uri) (Some 1%positive) (caller_heap true))) = [].
Proof.
  apply (query_rejection_propagates
           (demo_host (Fulfilled (Some stash_zero)) (Fulfilled None)
              (Rejected "fatal: bad revision"))
           None (Some demo_uri) (Some 1%positive) (caller_heap true)
           "/repo" "HEAD" "stash@{0}" ["R"; "C"]%string).
  - vm_compute. apply list_elem_of_here.
  - reflexivity.
Defined.

(** X8: a run completes normally exactly when it dispatched one request
    and [gitlens.diffWith] fulfilled it; a run that ends by [return]
    issued no query and dispatched nothing; a rejected request makes the
    run throw the same reason. *)
Theorem outcome_of_run host editor uri0 args h :
  (outcome_of (execute host editor uri0 args h) = Normal tt ↔
   ∃ payload,
     dispatched (trace_of (execute host editor uri0 args h)) = [payload] ∧
     executeCommand host "gitlens.diffWith" payload = Fulfilled tt) ∧
  (outcome_of (execute host editor uri0 args h) = Returned →
   diff_queries (trace_of (execute host editor uri0 args h)) = [] ∧
   dispatched (trace_of (execute host editor uri0 args h)) = []) ∧
  (∀ payload e,
     payload ∈ dispatched (trace_of (execute host editor uri0 args h)) →
     executeCommand host "gitlens.diffWith" payload = Rejected e →
     outcome_of (execute host editor uri0 args h) = Thrown e).
Proof.
  exit_cases' host editor uri0 args h.
  all: try (destruct (executeCommand host "gitlens.diffWith" xpayload)
              as [[]|e'] eqn:Hsent; simpl).
  all: split; [split | split].
  all: try (intros Hc; first [discriminate Hc | done | by eexists]).
  all: try (intros (p & Hp & Hok); simplify_eq; congruence).
  all: intros p reason Hin Hp; in_trace Hin; congruence.
Qed.

Lemma outcome_of_run_witness :
  outcome_of
    (execute (host_with_dispatch stash_host (Rejected "no editor"))
       None (Some demo_uri) (Some 1%positive) (caller_heap true))
    = Thrown "no editor".
Proof.
  destruct (outcome_of_run
              (host_with_dispatch stash_host (Rejected "no editor"))
              None (Some demo_uri) (Some 1%positive) (caller_heap true))
    as (_ & _ & Hthrow).
  eapply Hthrow; [|reflexivity].
  vm_compute. apply list_elem_of_here.
Defined.

(** X9: a warning is shown only for a file without repository; it is
    "Unable to open file comparison", and that run returns without having
    shown a picker or dispatched a request. *)
Theorem warning_only_without_repository host editor uri0 args h m :
  m ∈ warnings (trace_of (execute host editor uri0 args h)) →
  m = "Unable to open file comparison"%string ∧
  (∃ u g,
     getCommandUri host uri0 editor = Some u ∧
     GitUri_fromUri host u = Fulfilled g ∧
     js_truthy (repoPath g) = None) ∧
  outcome_of (execute host editor uri0 args h) = Returned ∧
  picker_events (trace_of (execute host editor uri0 args h)) = [] ∧
  dispatched (trace_of (execute host editor uri0 args h)) = [].
Proof.
  exit_cases' host editor uri0 args h; intros Hin; in_trace Hin.
  split; [done|]. split; [by exists xu, xg | done].
Qed.

Lemma warning_only_without_repository_witness :
  (∃ u g,
     getCommandUri cancel_host (Some {| fsPath := "/tmp/a.ts" |}) None
       = Some u ∧
     GitUri_fromUri cancel_host u = Fulfilled g ∧
     js_truthy (repoPath g) = None) ∧
  outcome_of (execute cancel_host None (Some {| fsPath := "/tmp/a.ts" |})
                None ∅) = Returned.
Proof.
  destruct (warning_only_without_repository cancel_host None
              (Some {| fsPath := "/tmp/a.ts" |}) None ∅
              "Unable to open file comparison")
    as (_ & Hwhy & Hreturned & _).
  { vm_compute. apply list_elem_of_here. }
  split; [exact Hwhy | exact Hreturned].
Defined.

(** X10: the calls of a run and its outcome depend on the heap only
    through the fields of the caller's [args] object: two invocations
    whose [args] have the same fields (or are both missing or empty) make
    the same calls and end the same way, whatever else the heaps hold. *)
Theorem run_depends_on_args_only host editor uri0 args1 h1 args2 h2 :
  copied h1 args1 = copied h2 args2 →
  outcome_of (execute host editor uri0 args1 h1)
    = outcome_of (execute host editor uri0 args2 h2) ∧
  trace_of (execute host editor uri0 args1 h1)
    = trace_of (execute host editor uri0 args2 h2).
Proof.
  intros Hsame.
  pose proof (execute_exit host editor uri0 args1 h1) as H1.
  pose proof (execute_exit host editor uri0 args2 h2) as H2.
  rewrite Hsame in H1.
  exact (Exit_functional _ _ _ _ _ _ _ _ H1 H2).
Qed.

Lemma run_depends_on_args_only_witness :
  outcome_of (execute remote_branch_host None (Some demo_uri) None ∅)
    = outcome_of (execute remote_branch_host None (Some demo_uri)
                    (Some 3%positive)
                    {[ 3%positive := noArgs; 5%positive := caller_args true ]})
  ∧
  trace_of (execute remote_branch_host None (Some demo_uri) None ∅)
    = trace_of (execute remote_branch_host None (Some demo_uri)
                  (Some 3%positive)
                  {[ 3%positive := noArgs; 5%positive := caller_args true ]}).
Proof.
  apply (run_depends_on_args_only remote_branch_host None (Some demo_uri)
           None ∅ (Some 3%positive)
           {[ 3%positive := noArgs; 5%positive := caller_args true ]}).
  by vm_compute.
Defined.

(** X11: the filter handed to the stash picker rejects a stash whose file
    list is known and empty. *)
Theorem stash_without_files_is_hidden host editor uri0 args h
    stashes pt ph opts c :
  EvStashPicker stashes pt ph opts
    ∈ trace_of (execute host editor uri0 args h) →
  sc_files c = Some [] →
  spo_filter opts c = false.
Proof.
  exit_cases' host editor uri0 args h; intros Hev Hfiles; in_trace Hev.
  all: unfold stash_options, stash_filter; simpl; by rewrite Hfiles.
Qed.

Lemma stash_without_files_is_hidden_witness :
  spo_filter (stash_options stash_host demo_gitUri "a.ts")
    {| sc_ref := "stash@{1}"; sc_files := Some [] |} = false.
Proof.
  eapply (stash_without_files_is_hidden stash_host None (Some demo_uri)
            (Some 1%positive) (caller_heap true)).
  - vm_compute. trace_has.
  - reflexivity.
Defined.

(** X12: once the repository is known, the run adds exactly one object to
    the heap, at a location that was free: the copy of [args], with the
    caller's [showOptions] and [stash] and with [line] set to the caller's
    line, else the line of the editor's selection, else 0. *)
Theorem copy_is_the_only_allocation host editor uri0 args h u g repo :
  Resolved host editor uri0 u g repo →
  ∃ l copy,
    h !! l = None ∧
    heap_of (execute host editor uri0 args h) = <[l := copy]> h ∧
    showOptions copy = showOptions (copied h args) ∧
    stash copy = stash (copied h args) ∧
    line copy
      = Some (match line (copied h args) with
              | Some n => n
              | None =>
                  match editor with
                  | Some e => selection_active_line e
                  | None => 0
                  end
              end).
Proof.
  intros Hfound.
  destruct (execute_heap_shape host editor uri0 args h)
    as [(u' & g' & repo' & l & _ & Hl & Hh) | [Hnone _]].
  2: by destruct (Hnone u g repo).
  exists l, (with_line editor (copied h args)).
  split; [done|]. split; [done|]. unfold with_line.
  destruct (line (copied h args)) eqn:Hline; simpl; rewrite ?Hline;
    by destruct editor.
Qed.

Lemma copy_is_the_only_allocation_witness :
  ∃ l copy,
    caller_heap true !! l = None ∧
    heap_of (execute stash_host (Some demo_editor) None (Some 1%positive)
               (caller_heap true)) = <[l := copy]> (caller_heap true) ∧
    showOptions copy = Some 7%positive ∧
    stash copy = Some true ∧
    line copy = Some 12.
Proof.
  apply (copy_is_the_only_allocation stash_host (Some demo_editor) None
           (Some 1%positive) (caller_heap true) demo_uri demo_gitUri "/repo").
  by vm_compute.
Defined.
